(** * Betting endpoint of betfairlightweight: vocabularies and operations

    A shallow embedding of [betfairlightweight/endpoints/betting.py]:
    the closed vocabularies declared as [str]-valued [Enum] classes, and
    the operations of the [Betting] endpoint, each of which collects its
    local variables into a parameter mapping, hands it to the request
    executor under a fully qualified method name, and passes the parsed
    answer to the response processor. *)

From stdpp Require Import gmap strings list fin_maps.
From Stdlib Require Import ZArith Ascii.

Set Warnings "-register-all".

Local Open Scope string_scope.

(** ** Vocabularies *)

(** One constructor per [class X(str, Enum)] of the module, in source order. *)
Inductive vocabulary : Type :=
  | MarketProjection | PriceData | MatchProjection | OrderProjection
  | MarketStatus | RunnerStatus | TimeGranularity | Side | OrderStatus
  | OrderBy | SortDir | OrderType | MarketSort | MarketBettingType
  | ExecutionReportStatus | ExecutionReportErrorCode | PersistenceType
  | InstructionReportStatus | InstructionReportErrorCode | GroupBy
  | BetStatus | TimeInForce | BetTargetType | PriceLadderType.

Definition vocabularies : list vocabulary :=
  [ MarketProjection; PriceData; MatchProjection; OrderProjection;
    MarketStatus; RunnerStatus; TimeGranularity; Side; OrderStatus;
    OrderBy; SortDir; OrderType; MarketSort; MarketBettingType;
    ExecutionReportStatus; ExecutionReportErrorCode; PersistenceType;
    InstructionReportStatus; InstructionReportErrorCode; GroupBy;
    BetStatus; TimeInForce; BetTargetType; PriceLadderType ].

(** The class body of a vocabulary: every assignment [NAME = "VALUE"], as a
    pair of the declared name and the assigned wire string, in source order
    (the items of Python's [__members__]). *)
Definition members (v : vocabulary) : list (string * string) :=
  match v with
  | MarketProjection =>
      [ ("COMPETITION", "COMPETITION");
        ("EVENT", "EVENT");
        ("EVENT_TYPE", "EVENT_TYPE");
        ("MARKET_START_TIME", "MARKET_START_TIME");
        ("MARKET_DESCRIPTION", "MARKET_DESCRIPTION");
        ("RUNNER_DESCRIPTION", "RUNNER_DESCRIPTION");
        ("RUNNER_METADATA", "RUNNER_METADATA") ]
  | PriceData =>
      [ ("SP_AVAILABLE", "SP_AVAILABLE");
        ("SP_TRADED", "SP_TRADED");
        ("EX_BEST_OFFERS", "EX_BEST_OFFERS");
        ("EX_ALL_OFFERS", "EX_ALL_OFFERS");
        ("EX_TRADED", "EX_TRADED") ]
  | MatchProjection =>
      [ ("NO_ROLLUP", "NO_ROLLUP");
        ("ROLLED_UP_BY_PRICE", "ROLLED_UP_BY_PRICE");
        ("ROLLED_UP_BY_AVG_PRICE", "ROLLED_UP_BY_AVG_PRICE") ]
  | OrderProjection =>
      [ ("ALL", "ALL");
        ("EXECUTABLE", "EXECUTABLE");
        ("EXECUTION_COMPLETE", "EXECUTION_COMPLETE") ]
  | MarketStatus =>
      [ ("INACTIVE", "INACTIVE");
        ("OPEN", "OPEN");
        ("SUSPENDED", "SUSPENDED");
        ("CLOSED", "CLOSED") ]
  | RunnerStatus =>
      [ ("ACTIVE", "ACTIVE");
        ("WINNER", "WINNER");
        ("LOSER", "LOSER");
        ("PLACED", "PLACED");
        ("REMOVED_VACANT", "REMOVED_VACANT");
        ("REMOVED", "REMOVED");
        ("HIDDEN", "HIDDEN") ]
  | TimeGranularity =>
      [ ("DAYS", "DAYS");
        ("HOURS", "HOURS");
        ("MINUTES", "MINUTES") ]
  | Side =>
      [ ("BACK", "BACK");
        ("LAY", "LAY") ]
  | OrderStatus =>
      [ ("PENDING", "PENDING");
        ("EXECUTION_COMPLETE", "EXECUTION_COMPLETE");
        ("EXECUTABLE", "EXECUTABLE");
        ("EXPIRED", "EXPIRED") ]
  | OrderBy =>
      [ ("BY_BET", "BY_BET");
        ("BY_MARKET", "BY_MARKET");
        ("BY_MATCH_TIME", "BY_MATCH_TIME");
        ("BY_PLACE_TIME", "BY_PLACE_TIME");
        ("BY_SETTLED_TIME", "BY_SETTLED_TIME");
        ("BY_VOID_TIME", "BY_VOID_TIME") ]
  | SortDir =>
      [ ("EARLIEST_TO_LATEST", "EARLIEST_TO_LATEST");
        ("LATEST_TO_EARLIEST", "LATEST_TO_EARLIEST") ]
  | OrderType =>
      [ ("LIMIT", "LIMIT");
        ("LIMIT_ON_CLOSE", "LIMIT_ON_CLOSE");
        ("MARKET_ON_CLOSE", "MARKET_ON_CLOSE") ]
  | MarketSort =>
      [ ("MINIMUM_TRADED", "MINIMUM_TRADED");
        ("MAXIMUM_TRADED", "MAXIMUM_TRADED");
        ("MINIMUM_AVAILABLE", "MINIMUM_AVAILABLE");
        ("MAXIMUM_AVAILABLE", "MAXIMUM_AVAILABLE");
        ("FIRST_TO_START", "FIRST_TO_START");
        ("LAST_TO_START", "LAST_TO_START") ]
  | MarketBettingType =>
      [ ("ODDS", "ODDS");
        ("LINE", "LINE");
        ("RANGE", "RANGE");
        ("ASIAN_HANDICAP_DOUBLE_LINE", "ASIAN_HANDICAP_DOUBLE_LINE");
        ("ASIAN_HANDICAP_SINGLE_LINE", "ASIAN_HANDICAP_SINGLE_LINE");
        ("FIXED_ODDS", "FIXED_ODDS") ]
  | ExecutionReportStatus =>
      [ ("SUCCESS", "SUCCESS");
        ("FAILURE", "FAILURE");
        ("PROCESSED_WITH_ERRORS", "PROCESSED_WITH_ERRORS");
        ("TIMEOUT", "TIMEOUT") ]
  | ExecutionReportErrorCode =>
      [ ("ERROR_IN_MATCHER", "ERROR_IN_MATCHER");
        ("PROCESSED_WITH_ERRORS", "PROCESSED_WITH_ERRORS");
        ("BET_ACTION_ERROR", "BET_ACTION_ERROR");
        ("INVALID_ACCOUNT_STATE", "INVALID_ACCOUNT_STATE");
        ("INVALID_WALLET_STATUS", "INVALID_WALLET_STATUS");
        ("INSUFFICIENT_FUNDS", "INSUFFICIENT_FUNDS");
        ("LOSS_LIMIT_EXCEEDED", "LOSS_LIMIT_EXCEEDED");
        ("MARKET_SUSPENDED", "MARKET_SUSPENDED");
        ("MARKET_NOT_OPEN_FOR_BETTING", "MARKET_NOT_OPEN_FOR_BETTING");
        ("DUPLICATE_TRANSACTION", "DUPLICATE_TRANSACTION");
        ("INVALID_ORDER", "INVALID_ORDER");
        ("INVALID_MARKET_ID", "INVALID_MARKET_ID");
        ("PERMISSION_DENIED", "PERMISSION_DENIED");
        ("DUPLICATE_BETIDS", "DUPLICATE_BETIDS");
        ("NO_ACTION_REQUIRED", "NO_ACTION_REQUIRED");
        ("SERVICE_UNAVAILABLE", "SERVICE_UNAVAILABLE");
        ("REJECTED_BY_REGULATOR", "REJECTED_BY_REGULATOR");
        ("NO_CHASING", "NO_CHASING");
        ("REGULATOR_IS_NOT_AVAILABLE", "REGULATOR_IS_NOT_AVAILABLE");
        ("TOO_MANY_INSTRUCTIONS", "TOO_MANY_INSTRUCTIONS");
        ("INVALID_MARKET_VERSION", "INVALID_MARKET_VERSION");
        ("INVALID_PROFIT_RATIO", "INVALID_PROFIT_RATIO") ]
  | PersistenceType =>
      [ ("LAPSE", "LAPSE");
        ("PERSIST", "PERSIST");
        ("MARKET_ON_CLOSE", "MARKET_ON_CLOSE") ]
  | InstructionReportStatus =>
      [ ("SUCCESS", "SUCCESS");
        ("FAILURE", "FAILURE");
        ("TIMEOUT", "TIMEOUT") ]
  | InstructionReportErrorCode =>
      [ ("INVALID_BET_SIZE", "INVALID_BET_SIZE");
        ("INVALID_RUNNER", "INVALID_RUNNER");
        ("BET_TAKEN_OR_LAPSED", "BET_TAKEN_OR_LAPSED");
        ("BET_IN_PROGRESS", "BET_IN_PROGRESS");
        ("RUNNER_REMOVED", "RUNNER_REMOVED");
        ("MARKET_NOT_OPEN_FOR_BETTING", "MARKET_NOT_OPEN_FOR_BETTING");
        ("LOSS_LIMIT_EXCEEDED", "LOSS_LIMIT_EXCEEDED");
        ("MARKET_NOT_OPEN_FOR_BSP_BETTING", "MARKET_NOT_OPEN_FOR_BSP_BETTING");
        ("INVALID_PRICE_EDIT", "INVALID_PRICE_EDIT");
        ("INVALID_ODDS", "INVALID_ODDS");
        ("INSUFFICIENT_FUNDS", "INSUFFICIENT_FUNDS");
        ("INVALID_PERSISTENCE_TYPE", "INVALID_PERSISTENCE_TYPE");
        ("ERROR_IN_MATCHER", "ERROR_IN_MATCHER");
        ("INVALID_BACK_LAY_COMBINATION", "INVALID_BACK_LAY_COMBINATION");
        ("ERROR_IN_ORDER", "ERROR_IN_ORDER");
        ("INVALID_BID_TYPE", "INVALID_BID_TYPE");
        ("INVALID_BET_ID", "INVALID_BET_ID");
        ("CANCELLED_NOT_PLACED", "CANCELLED_NOT_PLACED");
        ("RELATED_ACTION_FAILED", "RELATED_ACTION_FAILED");
        ("NO_ACTION_REQUIRED", "NO_ACTION_REQUIRED");
        ("TIME_IN_FORCE_CONFLICT", "TIME_IN_FORCE_CONFLICT");
        ("UNEXPECTED_PERSISTENCE_TYPE", "UNEXPECTED_PERSISTENCE_TYPE");
        ("INVALID_ORDER_TYPE", "INVALID_ORDER_TYPE");
        ("UNEXPECTED_MIN_FILL_SIZE", "UNEXPECTED_MIN_FILL_SIZE");
        ("INVALID_CUSTOMER_ORDER_REF", "INVALID_CUSTOMER_ORDER_REF");
        ("INVALID_MIN_FILL_SIZE", "INVALID_MIN_FILL_SIZE");
        ("BET_LAPSED_PRICE_IMPROVEMENT_TOO_LARGE", "BET_LAPSED_PRICE_IMPROVEMENT_TOO_LARGE") ]
  | GroupBy =>
      [ ("EVENT_TYPE", "EVENT_TYPE");
        ("EVENT", "EVENT");
        ("MARKET", "MARKET");
        ("SIDE", "SIDE");
        ("BET", "BET") ]
  | BetStatus =>
      [ ("SETTLED", "SETTLED");
        ("VOIDED", "VOIDED");
        ("LAPSED", "LAPSED");
        ("CANCELLED", "CANCELLED") ]
  | TimeInForce =>
      [ ("FILL_OR_KILL", "FILL_OR_KILL") ]
  | BetTargetType =>
      [ ("BACKERS_PROFIT", "BACKERS_PROFIT");
        ("PAYOUT", "PAYOUT") ]
  | PriceLadderType =>
      [ ("CLASSIC", "CLASSIC");
        ("FINEST", "FINEST");
        ("LINE_RANGE", "LINE_RANGE") ]
  end.

Definition member_name (m : string * string) : string := m.1.
Definition member_value (m : string * string) : string := m.2.

(** ** Values, mapping objects and the object store *)

Definition loc := nat.

(** Python values that reach the endpoint. A mapping ([dict]) is an object:
    a value holds a reference to it, and its contents live in the store, so
    that two references to one mapping see each other's updates. *)
Inductive value : Type :=
  | VNone
  | VBool (b : bool)
  | VInt (z : Z)
  | VFloat (m e : Z)
  | VStr (s : string)
  | VList (l : list value)
  | VDict (l : loc)
  | VObj (l : loc).

Definition is_None (v : value) : bool :=
  match v with VNone => true | _ => false end.

Record store : Type := Store {
  objs : gmap loc (gmap string value);
  next : loc
}.

Definition alloc (d : gmap string value) (s : store) : loc * store :=
  (next s, {| objs := <[next s := d]> (objs s); next := S (next s) |}).

Definition deref (s : store) (v : value) : option (gmap string value) :=
  match v with
  | VDict l => objs s !! l
  | _ => None
  end.

(** In-place update of a mapping object: [d[k] = v] through any reference. *)
Definition setitem (l : loc) (k : string) (v : value) (s : store) : store :=
  {| objs := alter (insert k v) l (objs s); next := next s |}.

(** ** Result types and JSON *)

Module resources.
Inductive resource : Type :=
  | EventTypeResult | CompetitionResult | TimeRangeResult | EventResult
  | MarketTypeResult | CountryResult | VenueResult | MarketCatalogue
  | MarketBook | CurrentOrders | ClearedOrders | MarketProfitLoss
  | PlaceOrders | CancelOrders | UpdateOrders | ReplaceOrders.
End resources.

Inductive json : Type :=
  | JNull
  | JBool (b : bool)
  | JNum (z : Z)
  | JStr (s : string)
  | JArr (xs : list json)
  | JObj (fields : list (string * json)).

(** ** The operations of [class Betting] *)

Inductive operation : Type :=
  | list_event_types | list_competitions | list_time_ranges | list_events
  | list_market_types | list_countries | list_venues | list_market_catalogue
  | list_market_book | list_runner_book | list_current_orders
  | list_cleared_orders | list_market_profit_and_loss | place_orders
  | cancel_orders | update_orders | replace_orders.

#[global] Instance operation_eq_dec : EqDecision operation.
Proof. solve_decision. Defined.

(** Every [def] of the class body, in source order. *)
Definition operations : list operation :=
  [ list_event_types; list_competitions; list_time_ranges; list_events;
    list_market_types; list_countries; list_venues; list_market_catalogue;
    list_market_book; list_runner_book; list_current_orders;
    list_cleared_orders; list_market_profit_and_loss; place_orders;
    cancel_orders; update_orders; replace_orders ].

(** The builders imported from [..filters]. *)
Inductive builder : Type := market_filter | time_range.

(** The default of a parameter, as the expression written in the [def]. *)
Inductive default_expr : Type :=
  | NoDefault
  | DefaultNone
  | DefaultStr (s : string)
  | DefaultInt (z : Z)
  | DefaultCall (b : builder).

#[global] Instance builder_eq_dec : EqDecision builder.
Proof. solve_decision. Defined.

#[global] Instance default_expr_eq_dec : EqDecision default_expr.
Proof. solve_decision. Defined.

(** The parameters of each operation after [self], in source order. *)
Definition signature (op : operation) : list (string * default_expr) :=
  match op with
  | list_event_types =>
      [ ("filter", DefaultCall market_filter);
        ("locale", DefaultNone);
        ("session", DefaultNone);
        ("lightweight", DefaultNone) ]
  | list_competitions =>
      [ ("filter", DefaultCall market_filter);
        ("locale", DefaultNone);
        ("session", DefaultNone);
        ("lightweight", DefaultNone) ]
  | list_time_ranges =>
      [ ("filter", DefaultCall market_filter);
        ("granularity", DefaultStr "DAYS");
        ("session", DefaultNone);
        ("lightweight", DefaultNone) ]
  | list_events =>
      [ ("filter", DefaultCall market_filter);
        ("locale", DefaultNone);
        ("session", DefaultNone);
        ("lightweight", DefaultNone) ]
  | list_market_types =>
      [ ("filter", DefaultCall market_filter);
        ("locale", DefaultNone);
        ("session", DefaultNone);
        ("lightweight", DefaultNone) ]
  | list_countries =>
      [ ("filter", DefaultCall market_filter);
        ("locale", DefaultNone);
        ("session", DefaultNone);
        ("lightweight", DefaultNone) ]
  | list_venues =>
      [ ("filter", DefaultCall market_filter);
        ("locale", DefaultNone);
        ("session", DefaultNone);
        ("lightweight", DefaultNone) ]
  | list_market_catalogue =>
      [ ("filter", DefaultCall market_filter);
        ("market_projection", DefaultNone);
        ("sort", DefaultNone);
        ("max_results", DefaultInt 1);
        ("locale", DefaultNone);
        ("session", DefaultNone);
        ("lightweight", DefaultNone) ]
  | list_market_book =>
      [ ("market_ids", NoDefault);
        ("price_projection", DefaultNone);
        ("order_projection", DefaultNone);
        ("match_projection", DefaultNone);
        ("include_overall_position", DefaultNone);
        ("partition_matched_by_strategy_ref", DefaultNone);
        ("customer_strategy_refs", DefaultNone);
        ("currency_code", DefaultNone);
        ("matched_since", DefaultNone);
        ("bet_ids", DefaultNone);
        ("locale", DefaultNone);
        ("session", DefaultNone);
        ("lightweight", DefaultNone) ]
  | list_runner_book =>
      [ ("market_id", NoDefault);
        ("selection_id", NoDefault);
        ("handicap", DefaultNone);
        ("price_projection", DefaultNone);
        ("order_projection", DefaultNone);
        ("match_projection", DefaultNone);
        ("include_overall_position", DefaultNone);
        ("partition_matched_by_strategy_ref", DefaultNone);
        ("customer_strategy_refs", DefaultNone);
        ("currency_code", DefaultNone);
        ("matched_since", DefaultNone);
        ("bet_ids", DefaultNone);
        ("locale", DefaultNone);
        ("session", DefaultNone);
        ("lightweight", DefaultNone) ]
  | list_current_orders =>
      [ ("bet_ids", DefaultNone);
        ("market_ids", DefaultNone);
        ("order_projection", DefaultNone);
        ("customer_order_refs", DefaultNone);
        ("customer_strategy_refs", DefaultNone);
        ("date_range", DefaultCall time_range);
        ("order_by", DefaultNone);
        ("sort_dir", DefaultNone);
        ("from_record", DefaultNone);
        ("record_count", DefaultNone);
        ("include_item_description", DefaultNone);
        ("session", DefaultNone);
        ("lightweight", DefaultNone) ]
  | list_cleared_orders =>
      [ ("bet_status", DefaultStr "SETTLED");
        ("event_type_ids", DefaultNone);
        ("event_ids", DefaultNone);
        ("market_ids", DefaultNone);
        ("runner_ids", DefaultNone);
        ("bet_ids", DefaultNone);
        ("customer_order_refs", DefaultNone);
        ("customer_strategy_refs", DefaultNone);
        ("side", DefaultNone);
        ("settled_date_range", DefaultCall time_range);
        ("group_by", DefaultNone);
        ("include_item_description", DefaultNone);
        ("locale", DefaultNone);
        ("from_record", DefaultNone);
        ("record_count", DefaultNone);
        ("session", DefaultNone);
        ("lightweight", DefaultNone) ]
  | list_market_profit_and_loss =>
      [ ("market_ids", NoDefault);
        ("include_settled_bets", DefaultNone);
        ("include_bsp_bets", DefaultNone);
        ("net_of_commission", DefaultNone);
        ("session", DefaultNone);
        ("lightweight", DefaultNone) ]
  | place_orders =>
      [ ("market_id", NoDefault);
        ("instructions", NoDefault);
        ("customer_ref", DefaultNone);
        ("market_version", DefaultNone);
        ("customer_strategy_ref", DefaultNone);
        ("async_", DefaultNone);
        ("session", DefaultNone);
        ("lightweight", DefaultNone) ]
  | cancel_orders =>
      [ ("market_id", DefaultNone);
        ("instructions", DefaultNone);
        ("customer_ref", DefaultNone);
        ("session", DefaultNone);
        ("lightweight", DefaultNone) ]
  | update_orders =>
      [ ("market_id", DefaultNone);
        ("instructions", DefaultNone);
        ("customer_ref", DefaultNone);
        ("session", DefaultNone);
        ("lightweight", DefaultNone) ]
  | replace_orders =>
      [ ("market_id", NoDefault);
        ("instructions", NoDefault);
        ("customer_ref", DefaultNone);
        ("market_version", DefaultNone);
        ("async_", DefaultNone);
        ("session", DefaultNone);
        ("lightweight", DefaultNone) ]
  end.

Definition URI : string := "SportsAPING/v1.0/".

(** The second operand of [method = "%s%s" % (self.URI, ...)]. *)
Definition remote_method (op : operation) : string :=
  match op with
  | list_event_types => "listEventTypes"
  | list_competitions => "listCompetitions"
  | list_time_ranges => "listTimeRanges"
  | list_events => "listEvents"
  | list_market_types => "listMarketTypes"
  | list_countries => "listCountries"
  | list_venues => "listVenues"
  | list_market_catalogue => "listMarketCatalogue"
  | list_market_book => "listMarketBook"
  | list_runner_book => "listRunnerBook"
  | list_current_orders => "listCurrentOrders"
  | list_cleared_orders => "listClearedOrders"
  | list_market_profit_and_loss => "listMarketProfitAndLoss"
  | place_orders => "placeOrders"
  | cancel_orders => "cancelOrders"
  | update_orders => "updateOrders"
  | replace_orders => "replaceOrders"
  end.

(** The class handed to [self.process_response]. *)
Definition expected_resource (op : operation) : resources.resource :=
  match op with
  | list_event_types => resources.EventTypeResult
  | list_competitions => resources.CompetitionResult
  | list_time_ranges => resources.TimeRangeResult
  | list_events => resources.EventResult
  | list_market_types => resources.MarketTypeResult
  | list_countries => resources.CountryResult
  | list_venues => resources.VenueResult
  | list_market_catalogue => resources.MarketCatalogue
  | list_market_book => resources.MarketBook
  | list_runner_book => resources.MarketBook
  | list_current_orders => resources.CurrentOrders
  | list_cleared_orders => resources.ClearedOrders
  | list_market_profit_and_loss => resources.MarketProfitLoss
  | place_orders => resources.PlaceOrders
  | cancel_orders => resources.CancelOrders
  | update_orders => resources.UpdateOrders
  | replace_orders => resources.ReplaceOrders
  end.

(** ** Turning local variables into wire parameters *)

(** Modelled from the spec: the upper-case form of a lower-case ASCII
    letter, other characters unchanged; used by [to_camel_case]. *)
Definition upper (c : ascii) : ascii :=
  let n := nat_of_ascii c in
  if bool_decide (97 ≤ n ≤ 122)%nat then ascii_of_nat (n - 32)%nat else c.

(** Modelled from the spec: the traversal behind [to_camel_case]; [up]
    tells that the previous character was an underscore. *)
Fixpoint camel (up : bool) (s : string) : string :=
  match s with
  | EmptyString => EmptyString
  | String c s' =>
      if Ascii.eqb c "_"%char then camel true s'
      else String (if up then upper c else c) (camel false s')
  end.

(** Modelled from the spec: [to_camel_case] is defined in [..utils], outside
    [betting.py]. The spec asks that the transmitted field names be the remote
    API's camel-case names of the snake-case local names: every underscore
    is dropped and the character that follows it is upper-cased. *)
Definition to_camel_case (snake_str : string) : string := camel false snake_str.

(** Modelled from the spec: the local names that are not wire fields, which
    are the receiver, the session handle and the raw/typed selector. *)
Definition transport_only : list string := ["self"; "session"; "lightweight"].

(** Modelled from the spec: the locals that [clean_locals] keeps. *)
Definition is_wire_field (kv : string * value) : bool :=
  negb (is_None kv.2) && negb (bool_decide (kv.1 ∈ transport_only)).

(** Modelled from the spec: [clean_locals] is defined in [..utils], outside
    [betting.py]. The spec describes its result: a new mapping that holds exactly
    the non-transport locals with a value other than [None], keyed by their
    camel-case names. As in a Python dict comprehension, a later item
    replaces an earlier one with the same key. *)
Definition clean_locals (data : list (string * value)) : gmap string value :=
  foldl (λ m kv, <[to_camel_case kv.1 := kv.2]> m) ∅
    (filter (λ kv, is_wire_field kv) data).

(** ** Class definition: default values are evaluated once *)

(** The builders of [..filters], by what they build when they are called
    without arguments. *)
Class Filters : Type := {
  market_filter_result : gmap string value;
  time_range_result : gmap string value
}.

Definition builder_result `{Filters} (b : builder) : gmap string value :=
  match b with
  | market_filter => market_filter_result
  | time_range => time_range_result
  end.

(** Modelled from the spec: the builders are defined in [..filters], outside
    [betting.py]. They supply the default filter and date-range payloads; a call of
    a builder creates a new mapping object. *)
Definition call_builder `{Filters} (b : builder) (s : store) : loc * store :=
  alloc (builder_result b) s.

(** Evaluation of a default expression when the [def] statement runs.
    A required parameter has none. *)
Definition eval_default `{Filters} (e : default_expr) (s : store)
  : option value * store :=
  match e with
  | NoDefault => (None, s)
  | DefaultNone => (Some VNone, s)
  | DefaultStr x => (Some (VStr x), s)
  | DefaultInt z => (Some (VInt z), s)
  | DefaultCall b => let '(l, s') := call_builder b s in (Some (VDict l), s')
  end.

Fixpoint eval_defaults `{Filters} (ps : list (string * default_expr)) (s : store)
  : list (string * option value) * store :=
  match ps with
  | [] => ([], s)
  | (p, e) :: ps' =>
      let '(d, s1) := eval_default e s in
      let '(ds, s2) := eval_defaults ps' s1 in
      ((p, d) :: ds, s2)
  end.

(** A class after its body has run: for each method, the evaluated defaults
    of its parameters (Python's [__defaults__]). *)
Definition klass : Type := list (operation * list (string * option value)).

Fixpoint define_methods `{Filters} (ops : list operation) (s : store)
  : klass * store :=
  match ops with
  | [] => ([], s)
  | op :: ops' =>
      let '(ds, s1) := eval_defaults (signature op) s in
      let '(K, s2) := define_methods ops' s1 in
      ((op, ds) :: K, s2)
  end.

Definition define_class `{Filters} (s : store) : klass * store :=
  define_methods operations s.

Fixpoint method_defaults (K : klass) (op : operation)
  : list (string * option value) :=
  match K with
  | [] => []
  | (op', ds) :: K' => if decide (op' = op) then ds else method_defaults K' op
  end.

(** ** Binding the arguments of a call *)

(** The caller's arguments, by parameter name. A parameter that the caller
    leaves out takes its evaluated default; a required parameter left out,
    or an argument that names no parameter, makes Python reject the call
    before the body runs ([None]). *)
Definition bind_param (args : gmap string value) (pd : string * option value)
  : option (string * value) :=
  match args !! pd.1 with
  | Some v => Some (pd.1, v)
  | None => (λ v, (pd.1, v)) <$> pd.2
  end.

Definition bind_args (self : value) (ds : list (string * option value))
    (args : gmap string value) : option (list (string * value)) :=
  if decide (dom args ⊆ list_to_set ds.*1) then
    locs ← mapM (bind_param args) ds; Some (("self", self) :: locs)
  else None.

(** [locals()[name]]; every name read by the bodies is a parameter. *)
Fixpoint local (name : string) (locs : list (string * value)) : value :=
  match locs with
  | [] => VNone
  | (k, v) :: locs' => if decide (k = name) then v else local name locs'
  end.

(** ** The collaborators inherited from [BaseEndpoint] *)

(** What a collaborator acts on: the Python objects and its own state [W]
    (the client, the network, the remote service). *)
Record world (W : Type) : Type := World {
  heap : store;
  net : W
}.
Arguments World {W} _ _.
Arguments heap {W} _.
Arguments net {W} _.

(** [self.request] and [self.process_response], defined by [BaseEndpoint]
    outside this file. Either may raise: [inl e] is a raised [e]. *)
Class BaseEndpoint (W response elapsed exn result : Type) : Type := {
  request :
    string → gmap string value → value →
    world W → (exn + (response * json * elapsed)) * world W;
  process_response :
    json → resources.resource → elapsed → value →
    world W → (exn + result) * world W
}.

(** A call of a collaborator, as recorded for reasoning about what an
    operation hands over and how often. *)
Inductive event (elapsed : Type) : Type :=
  | Requested (method : string) (params : gmap string value) (session : value)
  | Processed (response_json : json) (resource : resources.resource)
      (elapsed_time : elapsed) (lightweight : value).
Arguments Requested {elapsed} _ _ _.
Arguments Processed {elapsed} _ _ _ _.

Record state (W elapsed : Type) : Type := State {
  now : world W;
  trace : list (event elapsed)
}.
Arguments State {W elapsed} _ _.
Arguments now {W elapsed} _.
Arguments trace {W elapsed} _.

(** Computations of the endpoint: they may raise and they change the state. *)
Definition M (W elapsed exn A : Type) : Type :=
  state W elapsed → (exn + A) * state W elapsed.

#[global] Instance M_ret {W elapsed exn} : MRet (M W elapsed exn) :=
  λ A a st, (inr a, st).

#[global] Instance M_bind {W elapsed exn} : MBind (M W elapsed exn) :=
  λ A B f m st,
    match m st with
    | (inl e, st') => (inl e, st')
    | (inr a, st') => f a st'
    end.

Section Endpoint.
Context {W response elapsed exn result : Type}.
Context `{!BaseEndpoint W response elapsed exn result}.

Definition self_request (method : string) (params : gmap string value)
    (session : value) : M W elapsed exn (response * json * elapsed) :=
  λ st,
    let '(r, w) := request method params session (now st) in
    (r, State w (trace st ++ [Requested method params session])).

Definition self_process_response (response_json : json)
    (resource : resources.resource) (elapsed_time : elapsed)
    (lightweight : value) : M W elapsed exn result :=
  λ st,
    let '(r, w) :=
      process_response response_json resource elapsed_time lightweight (now st) in
    (r, State w (trace st ++ [Processed response_json resource elapsed_time lightweight])).

(** The body shared by all the methods, for the method [op] and its local
    variables: the four statements of each [def], in order. *)
Definition body (op : operation) (locals : list (string * value))
  : M W elapsed exn result :=
  let params := clean_locals locals in
  let method := URI ++ remote_method op in
  '(response, response_json, elapsed_time) ←
    self_request method params (local "session" locals);
  self_process_response response_json (expected_resource op) elapsed_time
    (local "lightweight" locals).

(** A call of the method [op] with the keyword arguments [args], on the class [K]. *)
Definition call (K : klass) (self : value) (op : operation)
    (args : gmap string value) : option (M W elapsed exn result) :=
  body op <$> bind_args self (method_defaults K op) args.

End Endpoint.

(** What a computation handed to the collaborators, from the state [st] on. *)
Definition handed_over {W elapsed exn A} (m : M W elapsed exn A)
    (st : state W elapsed) : list (event elapsed) :=
  drop (length (trace st)) (trace (m st).2).

(** ** The response processor, as the spec describes it *)

(** Modelled from the spec: a typed result object, of the class handed to
    the processor, with the elapsed time as metadata and the JSON it was
    built from. *)
Record instance (elapsed : Type) : Type := Instance_ {
  i_class : resources.resource;
  i_elapsed : elapsed;
  i_data : json
}.
Arguments Instance_ {elapsed} _ _ _.
Arguments i_class {elapsed} _.
Arguments i_elapsed {elapsed} _.
Arguments i_data {elapsed} _.

(** Modelled from the spec: what the processor returns, the raw JSON, one
    typed instance or a sequence of typed instances. *)
Inductive processed (elapsed : Type) : Type :=
  | Raw (j : json)
  | Typed (i : instance elapsed)
  | TypedList (l : list (instance elapsed)).
Arguments Raw {elapsed} _.
Arguments Typed {elapsed} _.
Arguments TypedList {elapsed} _.

(** Modelled from the spec: the selector asks for raw output when it is
    [True]; [None], its default, and [False] ask for typed output. *)
Definition raw_output (lightweight : value) : bool :=
  match lightweight with VBool true => true | _ => false end.

(** Modelled from the spec: [process_response] is defined by [BaseEndpoint],
    outside [betting.py]. The spec gives its contract: when the selector asks for
    raw output the parsed JSON is returned unchanged; otherwise instances of
    the expected class are built from the JSON, each one receiving the
    elapsed time, one instance per element for an array and a single
    instance otherwise. *)
Definition spec_process_response {elapsed} (response_json : json)
    (resource : resources.resource) (elapsed_time : elapsed)
    (lightweight : value) : processed elapsed :=
  if raw_output lightweight then Raw response_json
  else match response_json with
       | JArr xs => TypedList (Instance_ resource elapsed_time <$> xs)
       | x => Typed (Instance_ resource elapsed_time x)
       end.

(** An endpoint whose processor is the one of the spec, over any executor. *)
Definition spec_endpoint {W response elapsed exn}
    (req : string → gmap string value → value →
           world W → (exn + (response * json * elapsed)) * world W)
  : BaseEndpoint W response elapsed exn (processed elapsed) :=
  {| request := req;
     process_response := λ j c t lw w, (inr (spec_process_response j c t lw), w) |}.

Definition instances {elapsed} (r : processed elapsed) : list (instance elapsed) :=
  match r with
  | Raw _ => []
  | Typed i => [i]
  | TypedList l => l
  end.


(** The parameter mapping of the first request among recorded calls. *)
Definition requested_params {elapsed} (evs : list (event elapsed))
  : option (gmap string value) :=
  match evs with
  | Requested _ params _ :: _ => Some params
  | _ => None
  end.

(** ** A small concrete endpoint, used in the examples *)

Module Demo.

Definition filters : Filters :=
  {| market_filter_result := ∅;
     time_range_result := {[ "from" := VNone; "to" := VNone ]} |}.

(** An executor that counts the requests and always answers with an array
    of two objects, after 5 units of time. *)
Definition executor (method : string) (params : gmap string value)
    (session : value) (w : world nat)
  : (string + (unit * json * nat)) * world nat :=
  (inr (tt, JArr [JObj [("id", JStr "1")]; JObj [("id", JStr "2")]], 5%nat),
   World (heap w) (S (net w))).

(** An executor that counts the requests and always fails. *)
Definition failing_executor (method : string) (params : gmap string value)
    (session : value) (w : world nat)
  : (string + (unit * json * nat)) * world nat :=
  (inl "ConnectionError", World (heap w) (S (net w))).

Definition endpoint : BaseEndpoint nat unit nat string (processed nat) :=
  spec_endpoint executor.

Definition failing_endpoint : BaseEndpoint nat unit nat string (processed nat) :=
  spec_endpoint failing_executor.

Definition empty_store : store := Store ∅ 0.

(** The class, defined in the empty store, and an instance of it. *)
Definition Betting : klass := (@define_class filters empty_store).1.
Definition self : value := VObj 10.

Definition start : state nat nat :=
  State (World (@define_class filters empty_store).2 0) [].

End Demo.

(** ** Looking up the members of a vocabulary *)

(** [X(s)] for a vocabulary [X]: the member whose value is [s]. Python raises
    [ValueError] when no member has this value ([None]). *)
Definition lookup_value (v : vocabulary) (s : string) : option (string * string) :=
  List.find (λ m, bool_decide (member_value m = s)) (members v).

(** [X[s]] for a vocabulary [X]: the member declared under the name [s].
    Python raises [KeyError] when there is none ([None]). *)
Definition lookup_name (v : vocabulary) (s : string) : option (string * string) :=
  List.find (λ m, bool_decide (member_name m = s)) (members v).

(** Upper-case letters and underscores only. *)
Fixpoint is_upper_snake (s : string) : bool :=
  match s with
  | EmptyString => true
  | String c s' =>
      (bool_decide (65 ≤ nat_of_ascii c ≤ 90)%nat || Ascii.eqb c "_"%char)
      && is_upper_snake s'
  end.

(** ** Endpoints that differ in the raw transport response only *)

(** The endpoint [EP] with every raw response [r] of its executor replaced
    by [f r]; the parsed JSON, the elapsed time, the errors and the response
    processor are those of [EP]. *)
Definition with_response {W response response' elapsed exn result : Type}
    (f : response → response')
    (EP : BaseEndpoint W response elapsed exn result)
  : BaseEndpoint W response' elapsed exn result :=
  {| request := λ method params session w,
       let '(r, w') := @request _ _ _ _ _ EP method params session w in
       (match r with
        | inl e => inl e
        | inr (resp, response_json, elapsed_time) =>
            inr (f resp, response_json, elapsed_time)
        end, w');
     process_response := @process_response _ _ _ _ _ EP |}.

(** * Properties *)

(** ** Vocabularies *)

Lemma vocabularies_complete (v : vocabulary) : v ∈ vocabularies.
Proof. destruct v; unfold vocabularies; by repeat constructor. Qed.

(** C1: in every vocabulary of the module, the wire value of every member is
    its declared name, and no two members of one vocabulary have the same
    wire value. *)
Theorem vocabulary_values_are_names :
  ∀ v : vocabulary,
    Forall (λ m, member_value m = member_name m) (members v) ∧
    NoDup (member_value <$> members v).
Proof.
  intros v; split; destruct v; compute_done.
Qed.

(** ** Parameter mappings *)

Section clean_locals_facts.
Implicit Types (data l : list (string * value)) (m : gmap string value).

Lemma foldl_put_lookup_other l m k :
  (∀ kv, kv ∈ l → to_camel_case kv.1 ≠ k) →
  foldl (λ m kv, <[to_camel_case kv.1 := kv.2]> m) m l !! k = m !! k.
Proof.
  revert m; induction l as [|kv l IH]; intros m Hk; simpl; [done|].
  rewrite IH.
  - apply lookup_insert_ne, Hk. by left.
  - intros kv' Hin. apply Hk. by right.
Qed.


Lemma foldl_put_lookup_elem l m p v :
  NoDup (to_camel_case <$> l.*1) → (p, v) ∈ l →
  foldl (λ m kv, <[to_camel_case kv.1 := kv.2]> m) m l !! to_camel_case p = Some v.
Proof.
  revert m; induction l as [|[q w] l IH]; intros m Hnd Hin; simpl in *.
  - by apply elem_of_nil in Hin.
  - apply NoDup_cons in Hnd as [Hq Hnd].
    apply elem_of_cons in Hin as [[= -> ->]|Hin]; [|by apply IH].
    rewrite foldl_put_lookup_other.
    + apply lookup_insert_eq.
    + intros kv Hkv Heq. apply Hq. rewrite <- Heq.
      apply list_elem_of_fmap. exists kv.1. split; [done|].
      apply list_elem_of_fmap. by exists kv.
Qed.


(** Every local that is a wire field is in the mapping, under its
    camel-case name. *)
Lemma clean_locals_lookup data p v :
  NoDup (to_camel_case <$> data.*1) → (p, v) ∈ data →
  v ≠ VNone → p ∉ transport_only →
  clean_locals data !! to_camel_case p = Some v.
Proof.
  intros Hnd Hin Hv Hp. unfold clean_locals.
  apply foldl_put_lookup_elem.
  - eapply sublist_NoDup; [exact Hnd|].
    apply fmap_sublist, fmap_sublist, sublist_filter.
  - apply list_elem_of_filter. split; [|done].
    unfold is_wire_field; simpl. apply andb_prop_intro. split.
    + destruct v; simpl; done.
    + apply negb_prop_intro. intros Hin'. apply Hp.
      by apply bool_decide_unpack in Hin'.
Qed.


End clean_locals_facts.

(** ** Class definition and argument binding *)

Section binding_facts.
Context `{Filters}.
Implicit Types (ds : list (string * option value)) (args : gmap string value).

Lemma eval_defaults_names ps s : (eval_defaults ps s).1.*1 = ps.*1.
Proof.
  revert s; induction ps as [|[p e] ps IH]; intros s; simpl; [done|].
  destruct (eval_default e s) as [d s1].
  specialize (IH s1). destruct (eval_defaults ps s1) as [ds s2].
  simpl in *. f_equal. exact IH.
Qed.

(** A default that is a constant is the same whenever the class is defined. *)
Lemma eval_defaults_const ps s p e v :
  (p, e) ∈ ps → (∀ s0, eval_default e s0 = (Some v, s0)) →
  (p, Some v) ∈ (eval_defaults ps s).1.
Proof.
  revert s; induction ps as [|[q e'] ps IH]; intros s Hin He; simpl.
  - by apply elem_of_nil in Hin.
  - destruct (eval_default e' s) as [d s1] eqn:Hd.
    specialize (IH s1). destruct (eval_defaults ps s1) as [ds s2]. simpl in *.
    apply elem_of_cons in Hin as [[= <- <-]|Hin].
    + rewrite He in Hd. injection Hd as <- _. by left.
    + right. by apply IH.
Qed.

Lemma method_defaults_define_methods ops s op :
  op ∈ ops →
  ∃ s', method_defaults (define_methods ops s).1 op
        = (eval_defaults (signature op) s').1.
Proof.
  revert s; induction ops as [|op' ops IH]; intros s Hin; simpl.
  - by apply elem_of_nil in Hin.
  - destruct (eval_defaults (signature op') s) as [ds s1] eqn:Hds.
    specialize (IH s1). destruct (define_methods ops s1) as [K s2]. simpl in *.
    destruct (decide (op' = op)) as [->|Hne].
    + exists s. by rewrite Hds.
    + apply elem_of_cons in Hin as [->|Hin]; [done|]. by apply IH.
Qed.

Lemma operations_complete op : op ∈ operations.
Proof. destruct op; compute_done. Qed.

Lemma method_defaults_define_class s op :
  ∃ s', method_defaults (define_class s).1 op
        = (eval_defaults (signature op) s').1.
Proof. apply method_defaults_define_methods, operations_complete. Qed.

Lemma method_defaults_names s op :
  (method_defaults (define_class s).1 op).*1 = (signature op).*1.
Proof.
  destruct (method_defaults_define_class s op) as [s' ->].
  apply eval_defaults_names.
Qed.

Lemma method_defaults_const s op p e v :
  (p, e) ∈ signature op → (∀ s0, eval_default e s0 = (Some v, s0)) →
  (p, Some v) ∈ method_defaults (define_class s).1 op.
Proof.
  destruct (method_defaults_define_class s op) as [s' ->].
  apply eval_defaults_const.
Qed.

Lemma bind_args_Some self ds args locals :
  bind_args self ds args = Some locals →
  ∃ ls, locals = ("self", self) :: ls ∧
        Forall2 (λ pd kv, bind_param args pd = Some kv) ds ls.
Proof.
  unfold bind_args. case_decide; [|done].
  destruct (mapM (bind_param args) ds) as [ls|] eqn:Hm; simpl; [|done].
  intros [= <-]. exists ls. split; [done|]. by apply mapM_Some_1.
Qed.

Lemma bind_param_name args pd kv : bind_param args pd = Some kv → kv.1 = pd.1.
Proof.
  unfold bind_param. destruct (args !! pd.1); [by intros [= <-]|].
  destruct pd.2; simpl; [by intros [= <-]|done].
Qed.

Lemma bind_args_names self ds args locals :
  bind_args self ds args = Some locals → locals.*1 = "self" :: ds.*1.
Proof.
  intros (ls & -> & Hall)%bind_args_Some. simpl. f_equal.
  induction Hall as [|pd kv ds ls Hb _ IH]; simpl; [done|].
  by rewrite IH, (bind_param_name _ _ _ Hb).
Qed.

(** A parameter the caller leaves out is bound to its default. *)
Lemma bind_args_default self ds args locals p v :
  bind_args self ds args = Some locals →
  (p, Some v) ∈ ds → args !! p = None → (p, v) ∈ locals.
Proof.
  intros (ls & -> & Hall)%bind_args_Some Hin Hp. right.
  induction Hall as [|pd kv ds ls Hb _ IH]; [by apply elem_of_nil in Hin|].
  apply elem_of_cons in Hin as [<-|Hin]; [|right; by apply IH].
  unfold bind_param in Hb; simpl in Hb. rewrite Hp in Hb.
  injection Hb as <-. by left.
Qed.

(** A parameter the caller supplies is bound to the supplied value. *)
Lemma bind_args_supplied self ds args locals p v :
  bind_args self ds args = Some locals →
  p ∈ ds.*1 → args !! p = Some v → (p, v) ∈ locals.
Proof.
  intros (ls & -> & Hall)%bind_args_Some Hin Hp. right.
  induction Hall as [|pd kv ds ls Hb _ IH]; [by apply elem_of_nil in Hin|].
  simpl in Hin. apply elem_of_cons in Hin as [->|Hin]; [|right; by apply IH].
  unfold bind_param in Hb. rewrite Hp in Hb. injection Hb as <-. by left.
Qed.

(** The camel-case names of the locals of a method are pairwise
    different, so no two locals compete for one wire field. *)
Lemma wire_names_NoDup op :
  NoDup (to_camel_case <$> ("self" :: (signature op).*1)).
Proof. destruct op; compute_done. Qed.


Lemma locals_wire_names_NoDup s self op args locals :
  bind_args self (method_defaults (define_class s).1 op) args = Some locals →
  NoDup (to_camel_case <$> locals.*1).
Proof.
  intros Hb. rewrite (bind_args_names _ _ _ _ Hb), method_defaults_names.
  apply wire_names_NoDup.
Qed.

End binding_facts.

(** ** Which locals become wire fields *)

Section wire_field_facts.
Context `{Filters}.
Context (s : store) (self : value) (op : operation) (args : gmap string value).
Context (locals : list (string * value)).
Hypothesis Hbind :
  bind_args self (method_defaults (define_class s).1 op) args = Some locals.

Lemma locals_names : locals.*1 = "self" :: (signature op).*1.
Proof. by rewrite (bind_args_names _ _ _ _ Hbind), method_defaults_names. Qed.



Lemma field_present p v :
  (p, v) ∈ locals → v ≠ VNone → p ∉ transport_only →
  clean_locals locals !! to_camel_case p = Some v.
Proof.
  intros. apply clean_locals_lookup; [|done..].
  eapply locals_wire_names_NoDup, Hbind.
Qed.



Lemma None_default_unset p :
  (p, DefaultNone) ∈ signature op → args !! p = None → (p, VNone) ∈ locals.
Proof.
  intros Hp Ha. eapply bind_args_default; [exact Hbind| |done].
  by eapply method_defaults_const.
Qed.

Lemma supplied_local p v :
  p ∈ (signature op).*1 → args !! p = Some v → (p, v) ∈ locals.
Proof.
  intros Hp Ha. eapply bind_args_supplied; [exact Hbind| |done].
  by rewrite method_defaults_names.
Qed.

End wire_field_facts.

(** ** What an operation does with its collaborators *)

Section endpoint_facts.
Context {W response elapsed exn result : Type}.
Context `{!BaseEndpoint W response elapsed exn result}.
Implicit Types (st : state W elapsed) (locals : list (string * value)).

(** The body, with the two calls written out. *)
Lemma body_unfold op locals st :
  body op locals st =
    let method := URI ++ remote_method op in
    let params := clean_locals locals in
    let session := local "session" locals in
    let lightweight := local "lightweight" locals in
    match request method params session (now st) with
    | (inl e, w) =>
        (inl e, State w (trace st ++ [Requested method params session]))
    | (inr (_, response_json, elapsed_time), w) =>
        let '(r, w') :=
          process_response response_json (expected_resource op)
            elapsed_time lightweight w in
        (r, State w' (trace st ++
               [Requested method params session;
                Processed response_json (expected_resource op)
                  elapsed_time lightweight]))
    end.
Proof.
  unfold body, mbind, M_bind, self_request, self_process_response. simpl.
  destruct (request _ _ _ _) as [[e|[[r j] t]] w]; simpl; [done|].
  destruct (process_response _ _ _ _ _) as [o w']; simpl.
  by rewrite <- app_assoc.
Qed.

Lemma handed_over_app {A} (m : M W elapsed exn A) st evs :
  trace (m st).2 = (trace st ++ evs)%list → handed_over m st = evs.
Proof. unfold handed_over. intros ->. apply drop_app_length. Qed.

(** The first call of every operation is the request, with the cleaned
    locals as its parameters. *)
Lemma body_requested op locals st :
  ∃ rest,
    handed_over (body op locals) st =
      Requested (URI ++ remote_method op) (clean_locals locals)
        (local "session" locals) :: rest.
Proof.
  destruct (request (URI ++ remote_method op) (clean_locals locals)
              (local "session" locals) (now st)) as [[e|[[r j] t]] w] eqn:Hr.
  - exists []. apply handed_over_app. rewrite body_unfold. simpl. by rewrite Hr.
  - eexists. apply handed_over_app. rewrite body_unfold. simpl. rewrite Hr.
    by destruct (process_response _ _ _ _ _).
Qed.

Lemma body_requested_params op locals st :
  requested_params (handed_over (body op locals) st) = Some (clean_locals locals).
Proof. by destruct (body_requested op locals st) as [rest ->]. Qed.

(** All the calls of an operation: one request, then one processing when
    the request was answered. *)
Lemma body_handed_over op locals st :
  handed_over (body op locals) st =
    Requested (URI ++ remote_method op) (clean_locals locals)
      (local "session" locals) ::
    match (request (URI ++ remote_method op) (clean_locals locals)
             (local "session" locals) (now st)).1 with
    | inl _ => []
    | inr (_, response_json, elapsed_time) =>
        [Processed response_json (expected_resource op) elapsed_time
           (local "lightweight" locals)]
    end.
Proof.
  apply handed_over_app. rewrite body_unfold. simpl.
  destruct (request _ _ _ _) as [[e|[[r j] t]] w]; simpl; [done|].
  by destruct (process_response _ _ _ _ _).
Qed.

End endpoint_facts.

(** ** Dispatch *)

(** A call that Python accepts runs the body on the bound locals. *)
Lemma call_Some
    {W response elapsed exn result : Type}
    `{!BaseEndpoint W response elapsed exn result}
    (K : klass) (self : value) (op : operation) (args : gmap string value)
    (m : M W elapsed exn result) :
  call K self op args = Some m ↔
  ∃ locals, bind_args self (method_defaults K op) args = Some locals ∧
            m = body op locals.
Proof.
  unfold call. destruct (bind_args _ _ _) as [locals|]; simpl; split.
  - intros [= <-]. by exists locals.
  - by intros (? & [= <-] & ->).
  - done.
  - by intros (? & ? & _).
Qed.


Example list_market_book_method :
  ∃ locals,
    bind_args Demo.self (method_defaults Demo.Betting list_market_book)
      {[ "market_ids" := VList [VStr "1.170"] ]} = Some locals ∧
    ∃ params session,
      handed_over (@body _ _ _ _ _ Demo.endpoint list_market_book locals) Demo.start =
        [Requested "SportsAPING/v1.0/listMarketBook" params session;
         Processed (JArr [JObj [("id", JStr "1")]; JObj [("id", JStr "2")]])
           resources.MarketBook 5%nat VNone].
Proof.
  eexists. split; [vm_compute; reflexivity|]. eexists _, _. reflexivity.
Qed.

Example place_orders_method : URI ++ remote_method place_orders = "SportsAPING/v1.0/placeOrders".
Proof. reflexivity. Qed.

(** ** Failures *)

(** C7: an operation raises nothing of its own and handles nothing. When
    the request executor raises, the operation raises the same error, after
    exactly one request and without calling the response processor; when the
    executor answers, the outcome of the operation is the outcome of the
    response processor, raised error or result alike, again after exactly
    one request. *)
Theorem failures_propagate_unchanged
    {W response elapsed exn result : Type}
    `{!BaseEndpoint W response elapsed exn result}
    (op : operation) (locals : list (string * value)) (st : state W elapsed) :
  let method := URI ++ remote_method op in
  let params := clean_locals locals in
  let session := local "session" locals in
  let lightweight := local "lightweight" locals in
  match request method params session (now st) with
  | (inl e, w) =>
      (body op locals st).1 = inl e ∧
      now (body op locals st).2 = w ∧
      handed_over (body op locals) st = [Requested method params session]
  | (inr (_, response_json, elapsed_time), w) =>
      let processing :=
        process_response response_json (expected_resource op) elapsed_time
          lightweight w in
      (body op locals st).1 = processing.1 ∧
      now (body op locals st).2 = processing.2 ∧
      handed_over (body op locals) st =
        [Requested method params session;
         Processed response_json (expected_resource op) elapsed_time lightweight]
  end.
Proof.
  intros method params session lightweight.
  pose proof (body_unfold op locals st) as Hb. simpl in Hb.
  fold method params session lightweight in Hb.
  destruct (request method params session (now st)) as [[e|[[r j] t]] w].
  - rewrite Hb. split_and!; [done..|]. apply handed_over_app. by rewrite Hb.
  - simpl. destruct (process_response j (expected_resource op) t lightweight w)
      as [o w'].
    rewrite Hb. split_and!; [done..|]. apply handed_over_app. by rewrite Hb.
Qed.

Example failing_request_fails_once :
  ∃ locals,
    bind_args Demo.self (method_defaults Demo.Betting cancel_orders) ∅ = Some locals ∧
    (@body _ _ _ _ _ Demo.failing_endpoint cancel_orders locals Demo.start).1
      = inl "ConnectionError" ∧
    net (now (@body _ _ _ _ _ Demo.failing_endpoint cancel_orders locals Demo.start).2)
      = 1%nat.
Proof. eexists. split; [vm_compute; reflexivity|]. split; reflexivity. Qed.

(** ** Parameter mappings of the operations *)





Example default_values_are_vocabulary_members :
  ("SETTLED", "SETTLED") ∈ members BetStatus ∧
  ("DAYS", "DAYS") ∈ members TimeGranularity.
Proof. split; compute_done. Qed.





Example list_market_book_wire_names :
  to_camel_case <$> (signature list_market_book).*1 =
    [ "marketIds"; "priceProjection"; "orderProjection"; "matchProjection";
      "includeOverallPosition"; "partitionMatchedByStrategyRef";
      "customerStrategyRefs"; "currencyCode"; "matchedSince"; "betIds";
      "locale"; "session"; "lightweight" ].
Proof. reflexivity. Qed.

(** ** Response shaping *)


Example typed_list_of_two :
  ∃ locals,
    bind_args Demo.self (method_defaults Demo.Betting list_runner_book)
      {[ "market_id" := VStr "1.170"; "selection_id" := VInt 42 ]} = Some locals ∧
    (@body _ _ _ _ _ Demo.endpoint list_runner_book locals Demo.start).1 =
      inr (TypedList
             [ Instance_ resources.MarketBook 5%nat (JObj [("id", JStr "1")]);
               Instance_ resources.MarketBook 5%nat (JObj [("id", JStr "2")]) ]).
Proof. eexists. split; [vm_compute; reflexivity|]. reflexivity. Qed.

Example raw_when_lightweight :
  ∃ locals,
    bind_args Demo.self (method_defaults Demo.Betting list_runner_book)
      {[ "market_id" := VStr "1.170"; "selection_id" := VInt 42;
         "lightweight" := VBool true ]} = Some locals ∧
    (@body _ _ _ _ _ Demo.endpoint list_runner_book locals Demo.start).1 =
      inr (Raw (JArr [JObj [("id", JStr "1")]; JObj [("id", JStr "2")]])).
Proof. eexists. split; [vm_compute; reflexivity|]. reflexivity. Qed.

(** C9: [list_runner_book] hands the response processor the class
    [resources.MarketBook], the class [list_market_book] hands over too, so
    with the processor of the spec every instance it returns is a
    [MarketBook]. *)
Theorem list_runner_book_yields_MarketBook
    {W response elapsed exn : Type}
    (req : string → gmap string value → value →
           world W → (exn + (response * json * elapsed)) * world W)
    (locals : list (string * value)) (st : state W elapsed) :
  expected_resource list_runner_book = resources.MarketBook ∧
  expected_resource list_runner_book = expected_resource list_market_book ∧
  Forall (λ ev, match ev with
                | Processed _ c _ _ => c = resources.MarketBook
                | Requested _ _ _ => True
                end)
    (handed_over (@body _ _ _ _ _ (spec_endpoint req) list_runner_book locals) st) ∧
  match (@body _ _ _ _ _ (spec_endpoint req) list_runner_book locals st).1 with
  | inl _ => True
  | inr r => Forall (λ i, i_class i = resources.MarketBook) (instances r)
  end.
Proof.
  split_and!; [done..| |].
  - rewrite body_handed_over. constructor; [done|].
    destruct (request _ _ _ _).1 as [e|[[r j] t]]; by repeat constructor.
  - rewrite body_unfold. simpl.
    destruct (req _ _ _ _) as [[e|[[r j] t]] w]; simpl; [done|].
    unfold spec_process_response.
    destruct (raw_output _); simpl; [by constructor|].
    destruct j; simpl; try by repeat constructor.
    apply Forall_fmap, Forall_true. by intros x.
Qed.

(** ** State *)

Lemma operations_NoDup : NoDup operations.
Proof. compute_done. Qed.

(** The claim that the endpoint has exactly thirteen operations fails:
    no duplicate-free list of all the operations has length thirteen. *)
Lemma operations_are_not_thirteen :
  ¬ ∃ l : list operation, NoDup l ∧ (∀ op, op ∈ l) ∧ length l = 13%nat.
Proof.
  intros (l & Hnd & Hall & Hlen).
  assert (Hsub : operations ⊆+ l).
  { apply NoDup_submseteq; [apply operations_NoDup|]. intros op _. apply Hall. }
  apply submseteq_length in Hsub. rewrite Hlen in Hsub.
  simpl in Hsub. lia.
Qed.

(** C8, amended: an operation changes the state of the world only through
    the request executor and the response processor. Whatever part of the
    world the two collaborators leave as it is (the vocabularies and the
    default mappings of the other operations are such parts of the Python
    heap), the operation leaves as it is. The endpoint has exactly seventeen
    such operations. *)
Theorem operations_only_act_through_collaborators
    {W response elapsed exn result X : Type}
    `{!BaseEndpoint W response elapsed exn result}
    (part : world W → X)
    (op : operation) (locals : list (string * value)) (st : state W elapsed) :
  (∀ method params session w,
     part (request method params session w).2 = part w) →
  (∀ response_json resource elapsed_time lightweight w,
     part (process_response response_json resource elapsed_time lightweight w).2
     = part w) →
  part (now (body op locals st).2) = part (now st) ∧
  NoDup operations ∧ op ∈ operations ∧ length operations = 17%nat.
Proof.
  intros Hreq Hproc. split_and!;
    [|apply operations_NoDup|apply operations_complete|done].
  rewrite body_unfold. simpl.
  specialize (Hreq (URI ++ remote_method op) (clean_locals locals)
                (local "session" locals) (now st)).
  destruct (request _ _ _ _) as [[e|[[r j] t]] w]; simpl in *; [done|].
  specialize (Hproc j (expected_resource op) t (local "lightweight" locals) w).
  destruct (process_response _ _ _ _ _) as [o w']; simpl in *. congruence.
Qed.

Lemma operations_only_act_through_collaborators_witness :
  ∃ locals,
    bind_args Demo.self (method_defaults Demo.Betting update_orders) ∅
      = Some locals ∧
    heap (now (@body _ _ _ _ _ Demo.endpoint update_orders locals Demo.start).2)
      = heap (now Demo.start) ∧
    NoDup operations ∧ update_orders ∈ operations ∧ length operations = 17%nat.
Proof.
  eexists. split; [vm_compute; reflexivity|].
  apply (@operations_only_act_through_collaborators _ _ _ _ _ _
           Demo.endpoint heap update_orders).
  - intros method params session w. reflexivity.
  - intros response_json resource elapsed_time lightweight w. reflexivity.
Defined.

(** ** Default mappings *)

Lemma deref_setitem (s : store) (l : loc) (k : string) (v : value)
    (d : gmap string value) :
  objs s !! l = Some d → deref (setitem l k v s) (VDict l) = Some (<[k:=v]> d).
Proof. intros Hd. simpl. by rewrite lookup_alter_eq, Hd. Qed.

(** C10: a default written as a call of [market_filter()] or [time_range()]
    is evaluated when the class is defined, ten calls in all, and never at a
    call of an operation. For each such parameter there is one mapping
    object, created at class definition with the builder's result, and every
    invocation that leaves the parameter out binds the parameter to this
    very object and transmits a reference to it; so after an update of the
    object, an invocation that leaves the parameter out transmits the
    updated mapping. *)
Theorem default_mappings_are_shared
    `{Filters} {W response elapsed exn result : Type}
    `{!BaseEndpoint W response elapsed exn result}
    (s : store) (op : operation) (p : string) (b : builder) :
  (p, DefaultCall b) ∈ signature op →
  next (define_class s).2 = (10 + next s)%nat ∧
  ∃ l : loc,
    (next s ≤ l < next (define_class s).2)%nat ∧
    objs (define_class s).2 !! l = Some (builder_result b) ∧
    ∀ (self : value) (args : gmap string value)
      (locals : list (string * value)) (st : state W elapsed),
      bind_args self (method_defaults (define_class s).1 op) args = Some locals →
      args !! p = None →
      (p, VDict l) ∈ locals ∧
      (∃ params,
         requested_params (handed_over (body op locals) st) = Some params ∧
         params !! to_camel_case p = Some (VDict l)) ∧
      ∀ (k : string) (v : value) (d : gmap string value),
        objs (heap (now st)) !! l = Some d →
        let st' :=
          State (World (setitem l k v (heap (now st))) (net (now st))) (trace st) in
        ∃ params field,
          requested_params (handed_over (body op locals) st') = Some params ∧
          params !! to_camel_case p = Some field ∧
          deref (heap (now st')) field = Some (<[k:=v]> d).
Proof.
  intros Hp. split; [reflexivity|].
  assert (Hshared : ∀ l : loc,
            (p, Some (VDict l)) ∈ method_defaults (define_class s).1 op →
            p ∉ transport_only →
            ∀ (self : value) (args : gmap string value)
              (locals : list (string * value)) (st : state W elapsed),
              bind_args self (method_defaults (define_class s).1 op) args
                = Some locals →
              args !! p = None →
              (p, VDict l) ∈ locals ∧
              (∃ params,
                 requested_params (handed_over (body op locals) st) = Some params ∧
                 params !! to_camel_case p = Some (VDict l)) ∧
              ∀ (k : string) (v : value) (d : gmap string value),
                objs (heap (now st)) !! l = Some d →
                let st' :=
                  State (World (setitem l k v (heap (now st))) (net (now st)))
                    (trace st) in
                ∃ params field,
                  requested_params (handed_over (body op locals) st') = Some params ∧
                  params !! to_camel_case p = Some field ∧
                  deref (heap (now st')) field = Some (<[k:=v]> d)).
  { intros l Hl Ht self args locals st Hbind Ha.
    assert (Hlocal : (p, VDict l) ∈ locals) by by eapply bind_args_default.
    assert (Hfield : clean_locals locals !! to_camel_case p = Some (VDict l)).
    { by eapply field_present. }
    split_and!.
    - done.
    - exists (clean_locals locals). split; [apply body_requested_params|done].
    - intros k v d Hd st'. exists (clean_locals locals), (VDict l).
      split_and!; [apply body_requested_params|done|].
      by apply deref_setitem. }
  destruct op; simpl in Hp;
    repeat (apply elem_of_cons in Hp as [Hp|Hp];
            [first [ discriminate Hp
                   | injection Hp as -> ->;
                     eexists; split_and!; last first;
                     [ apply Hshared; [cbn; by repeat constructor|compute_done]
                     | cbn; repeat (rewrite lookup_insert_ne by lia);
                       apply lookup_insert_eq
                     | cbn; lia.. ] ]
            |]);
    by apply elem_of_nil in Hp.
Qed.

Lemma default_mappings_are_shared_witness :
  ("date_range", DefaultCall time_range) ∈ signature list_current_orders ∧
  ∃ l : loc,
    objs (@define_class Demo.filters Demo.empty_store).2 !! l
      = Some (@builder_result Demo.filters time_range) ∧
    ∀ (self : value) (args : gmap string value)
      (locals : list (string * value)) (st : state nat nat),
      bind_args self (method_defaults Demo.Betting list_current_orders) args
        = Some locals →
      args !! "date_range" = None →
      ("date_range", VDict l) ∈ locals ∧
      ∃ params,
        requested_params
          (handed_over (@body _ _ _ _ _ Demo.endpoint list_current_orders locals) st)
          = Some params ∧
        params !! "dateRange" = Some (VDict l).
Proof.
  split; [compute_done|].
  destruct (@default_mappings_are_shared Demo.filters _ _ _ _ _ Demo.endpoint
              Demo.empty_store list_current_orders "date_range" time_range)
    as (_ & l & _ & Hobj & Hcalls); [compute_done|].
  exists l. split; [exact Hobj|].
  intros self args locals st Hbind Ha.
  destruct (Hcalls self args locals st Hbind Ha) as (Hlocal & Hparams & _).
  split; [exact Hlocal|exact Hparams].
Defined.

(** Two calls of [list_events] without a filter, with an update of the
    default mapping in between: the second call transmits the update. *)
Example default_filter_update_is_seen :
  ∃ locals,
    bind_args Demo.self (method_defaults Demo.Betting list_events) ∅ = Some locals ∧
    let first_call := @body _ _ _ _ _ Demo.endpoint list_events locals Demo.start in
    let st' :=
      State (World (setitem 3 "eventTypeIds" (VList [VStr "7"])
                      (heap (now first_call.2)))
               (net (now first_call.2)))
        (trace first_call.2) in
    requested_params (handed_over (@body _ _ _ _ _ Demo.endpoint list_events locals) Demo.start)
      = Some {[ "filter" := VDict 3 ]} ∧
    deref (heap (now Demo.start)) (VDict 3) = Some ∅ ∧
    requested_params (handed_over (@body _ _ _ _ _ Demo.endpoint list_events locals) st')
      = Some {[ "filter" := VDict 3 ]} ∧
    deref (heap (now st')) (VDict 3) = Some {[ "eventTypeIds" := VList [VStr "7"] ]}.
Proof.
  eexists. split; [vm_compute; reflexivity|].
  split_and!; vm_compute; reflexivity.
Qed.

(** * Further properties of the module *)

(** ** Member lookup *)

Lemma members_value_is_name (v : vocabulary) :
  Forall (λ m, m.2 = m.1) (members v).
Proof. destruct v; compute_done. Qed.

Lemma find_by_value_spec (l : list (string * string)) (s : string) :
  Forall (λ m, m.2 = m.1) l →
  List.find (λ m, bool_decide (member_value m = s)) l =
    if decide (s ∈ member_value <$> l) then Some (s, s) else None.
Proof.
  induction 1 as [|[n w] l Hm _ IH]; [done|]. simpl in Hm. subst w.
  cbn [List.find]. rewrite fmap_cons. change (member_value (n, n)) with n.
  destruct (decide (n = s)) as [->|Hne].
  - rewrite bool_decide_eq_true_2 by done.
    rewrite decide_True; [done|]. by left.
  - rewrite bool_decide_eq_false_2 by done. rewrite IH.
    destruct (decide (s ∈ member_value <$> l)) as [Hin|Hnin].
    + rewrite decide_True; [done|]. by right.
    + rewrite decide_False; [done|].
      intros [Heq|Hin]%elem_of_cons; [by destruct Hne|done].
Qed.

Lemma find_by_name_is_find_by_value (l : list (string * string)) (s : string) :
  Forall (λ m, m.2 = m.1) l →
  List.find (λ m, bool_decide (member_name m = s)) l =
  List.find (λ m, bool_decide (member_value m = s)) l.
Proof.
  induction 1 as [|[n w] l Hm _ IH]; [done|]. simpl in Hm. subst w.
  cbn [List.find]. change (member_name (n, n)) with n.
  change (member_value (n, n)) with n. by rewrite IH.
Qed.

(** X1: in every vocabulary, looking a member up by its own wire value, or
    by its own name, gives back that member. *)
Theorem member_lookup_round_trip :
  ∀ v : vocabulary,
    Forall (λ m, lookup_value v (member_value m) = Some m ∧
                 lookup_name v (member_name m) = Some m) (members v).
Proof. intros v; destruct v; compute_done. Qed.

(** X2: for any string [s], lookup by value and lookup by name agree; both
    give the member named [s] with value [s] when [s] is a wire value of the
    vocabulary, and fail otherwise. The comparison is exact, so a string in
    another case is not found. *)
Theorem lookup_by_value_is_lookup_by_name :
  ∀ (v : vocabulary) (s : string),
    lookup_name v s = lookup_value v s ∧
    lookup_value v s =
      if decide (s ∈ member_value <$> members v) then Some (s, s) else None.
Proof.
  intros v s. unfold lookup_name, lookup_value. split.
  - apply find_by_name_is_find_by_value, members_value_is_name.
  - apply find_by_value_spec, members_value_is_name.
Qed.

Example lookup_is_case_sensitive :
  lookup_value MarketStatus "OPEN" = Some ("OPEN", "OPEN") ∧
  lookup_value MarketStatus "open" = None ∧
  lookup_value Side "OPEN" = None.
Proof. split_and!; reflexivity. Qed.

(** X3: every wire value of every vocabulary is made of upper-case ASCII
    letters and underscores only. *)
Theorem wire_values_are_upper_snake_case :
  ∀ v : vocabulary,
    Forall (λ m, is_upper_snake (member_value m) = true) (members v).
Proof. intros v; destruct v; compute_done. Qed.

(** ** Which calls Python accepts *)

Lemma eval_defaults_required `{Filters} ps s p :
  (p, None) ∈ (eval_defaults ps s).1 ↔ (p, NoDefault) ∈ ps.
Proof.
  revert s; induction ps as [|[q e] ps IH]; intros s; simpl.
  - split; intros Hin; by apply elem_of_nil in Hin.
  - destruct (eval_default e s) as [d s1] eqn:Hd.
    specialize (IH s1). destruct (eval_defaults ps s1) as [ds s2]. simpl in *.
    rewrite !elem_of_cons, IH.
    assert (Hhead : (p, None) = (q, d) ↔ (p, NoDefault) = (q, e)).
    { destruct e; simpl in Hd; try destruct (call_builder b s);
        injection Hd as <- _; split; intros [= ->]; done. }
    by rewrite Hhead.
Qed.

Lemma method_defaults_required `{Filters} s op p :
  (p, None) ∈ method_defaults (define_class s).1 op ↔
  (p, NoDefault) ∈ signature op.
Proof.
  destruct (method_defaults_define_class s op) as [s' ->].
  apply eval_defaults_required.
Qed.

Lemma bind_args_is_Some self ds args :
  is_Some (bind_args self ds args) ↔
  (∀ k, is_Some (args !! k) → k ∈ ds.*1) ∧
  (∀ p, (p, None) ∈ ds → is_Some (args !! p)).
Proof.
  unfold bind_args. split.
  - intros Hs. case_decide as Hdom; [|by destruct Hs as [? [=]]]. split.
    + intros k Hk. apply elem_of_dom in Hk. apply Hdom in Hk.
      by apply elem_of_list_to_set in Hk.
    + intros p Hp.
      assert (Hall : Forall (is_Some ∘ bind_param args) ds).
      { apply mapM_is_Some_1. destruct (mapM _ ds); [by eexists|].
        by destruct Hs as [? [=]]. }
      rewrite Forall_forall in Hall. specialize (Hall _ Hp).
      unfold bind_param in Hall; simpl in Hall.
      destruct (args !! p); [by eexists|]. by destruct Hall as [? [=]].
  - intros [Hk Hr]. rewrite decide_True.
    + assert (Hm : is_Some (mapM (bind_param args) ds)).
      { apply mapM_is_Some_2, Forall_forall. intros [p d] Hin. simpl.
        unfold bind_param; simpl.
        destruct (args !! p) eqn:Ha; [by eexists|].
        destruct d; simpl; [by eexists|].
        apply Hr in Hin. rewrite Ha in Hin. by destruct Hin as [? [=]]. }
      destruct Hm as [locs ->]. by eexists.
    + intros k Hin%elem_of_dom. apply elem_of_list_to_set. by apply Hk.
Qed.


(** X5: the operations that can be called without any argument are all but
    [list_market_book], [list_runner_book], [list_market_profit_and_loss],
    [place_orders] and [replace_orders]; in particular [cancel_orders] and
    [update_orders] run without a market id. *)
Theorem callable_without_arguments `{Filters}
    (s : store) (self : value) (op : operation) :
  is_Some (bind_args self (method_defaults (define_class s).1 op) ∅) ↔
  op ∉ [ list_market_book; list_runner_book; list_market_profit_and_loss;
         place_orders; replace_orders ].
Proof.
  rewrite bind_args_is_Some. split.
  - intros [_ Hr] Hop.
    assert (Hreq : ∃ p, (p, NoDefault) ∈ signature op).
    { set_unfold in Hop.
      destruct Hop as [->|[->|[->|[->|[->|[]]]]]]; eexists; by left. }
    destruct Hreq as [p Hp].
    apply (proj2 (method_defaults_required s op p)) in Hp.
    apply Hr in Hp. rewrite lookup_empty in Hp. by destruct Hp as [? [=]].
  - intros Hop. split.
    + intros k Hk. rewrite lookup_empty in Hk. by destruct Hk as [? [=]].
    + intros p Hp. apply (proj1 (method_defaults_required s op p)) in Hp.
      destruct op; try (destruct Hop; compute_done);
        simpl in Hp;
        repeat (apply elem_of_cons in Hp as [Hp|Hp]; [discriminate Hp|]);
        by apply elem_of_nil in Hp.
Qed.

(** ** The session and the selector *)

Lemma local_elem (locs : list (string * value)) (k : string) (v : value) :
  NoDup locs.*1 → (k, v) ∈ locs → local k locs = v.
Proof.
  induction locs as [|[q w] locs IH]; simpl; intros Hnd Hin.
  - by apply elem_of_nil in Hin.
  - apply NoDup_cons in Hnd as [Hq Hnd].
    apply elem_of_cons in Hin as [[= -> ->]|Hin].
    + by rewrite decide_True.
    + rewrite decide_False; [by apply IH|].
      intros ->. apply Hq. apply list_elem_of_fmap. by exists (k, v).
Qed.

Lemma local_names_NoDup (op : operation) :
  NoDup ("self" :: (signature op).*1).
Proof. destruct op; compute_done. Qed.

Lemma transport_parameters (op : operation) :
  ("session", DefaultNone) ∈ signature op ∧
  ("lightweight", DefaultNone) ∈ signature op.
Proof. destruct op; split; compute_done. Qed.

Lemma local_of_optional `{Filters} s self op args locals p :
  bind_args self (method_defaults (define_class s).1 op) args = Some locals →
  (p, DefaultNone) ∈ signature op →
  local p locals = default VNone (args !! p).
Proof.
  intros Hbind Hp. apply local_elem.
  - rewrite (locals_names _ _ _ _ _ Hbind). apply local_names_NoDup.
  - destruct (args !! p) as [v|] eqn:Ha; simpl.
    + eapply supplied_local; [exact Hbind| |done].
      apply list_elem_of_fmap. by exists (p, DefaultNone).
    + by eapply None_default_unset.
Qed.

(** X6: the session the caller gives is the third argument of the single
    request, and the selector the caller gives is the last argument of the
    processing that follows an answered request; each is [None] when the
    caller leaves it out. *)
Theorem session_and_selector_are_passed_on
    `{Filters} {W response elapsed exn result : Type}
    `{!BaseEndpoint W response elapsed exn result}
    (s : store) (self : value) (op : operation) (args : gmap string value)
    (locals : list (string * value)) (st : state W elapsed) :
  bind_args self (method_defaults (define_class s).1 op) args = Some locals →
  let session := default VNone (args !! "session") in
  let lightweight := default VNone (args !! "lightweight") in
  handed_over (body op locals) st =
    Requested (URI ++ remote_method op) (clean_locals locals) session ::
    match (request (URI ++ remote_method op) (clean_locals locals) session
             (now st)).1 with
    | inl _ => []
    | inr (_, response_json, elapsed_time) =>
        [Processed response_json (expected_resource op) elapsed_time lightweight]
    end.
Proof.
  intros Hbind session lightweight. rewrite body_handed_over.
  destruct (transport_parameters op) as [Hs Hl].
  rewrite (local_of_optional _ _ _ _ _ _ Hbind Hs).
  by rewrite (local_of_optional _ _ _ _ _ _ Hbind Hl).
Qed.

Lemma session_and_selector_are_passed_on_witness :
  ∃ locals,
    bind_args Demo.self (method_defaults Demo.Betting cancel_orders)
      {[ "session" := VObj 77; "lightweight" := VBool true ]} = Some locals ∧
    handed_over (@body _ _ _ _ _ Demo.endpoint cancel_orders locals) Demo.start =
      [ Requested "SportsAPING/v1.0/cancelOrders" ∅ (VObj 77);
        Processed (JArr [JObj [("id", JStr "1")]; JObj [("id", JStr "2")]])
          resources.CancelOrders 5%nat (VBool true) ].
Proof.
  eexists. split; [vm_compute; reflexivity|].
  rewrite (@session_and_selector_are_passed_on Demo.filters _ _ _ _ _
             Demo.endpoint Demo.empty_store Demo.self cancel_orders
             ({[ "session" := VObj 77; "lightweight" := VBool true ]}
                : gmap string value));
    [|vm_compute; reflexivity].
  vm_compute. reflexivity.
Defined.

(** ** The raw transport response *)

(** X7: the raw transport response that the executor returns is not used:
    replacing it by anything else changes neither the outcome of an
    operation nor the state it leaves. *)
Theorem raw_response_is_ignored
    {W response response' elapsed exn result : Type}
    (f : response → response')
    (EP : BaseEndpoint W response elapsed exn result)
    (op : operation) (locals : list (string * value)) (st : state W elapsed) :
  @body _ _ _ _ _ (with_response f EP) op locals st =
  @body _ _ _ _ _ EP op locals st.
Proof.
  rewrite !body_unfold. simpl.
  destruct (@request _ _ _ _ _ EP _ _ _ _) as [[e|[[r j] t]] w]; done.
Qed.

(** ** The default mapping objects *)

(** The place of each default mapping among the objects that the class
    definition creates, in the order of the [def] statements. *)
Lemma default_object_cases `{Filters} (s : store) (op : operation)
    (p : string) (l : loc) :
  (p, Some (VDict l)) ∈ method_defaults (define_class s).1 op →
  (next s ≤ l)%nat ∧
  (op, p, (l - next s)%nat) ∈
    [ (list_event_types, "filter", 0%nat); (list_competitions, "filter", 1%nat);
      (list_time_ranges, "filter", 2%nat); (list_events, "filter", 3%nat);
      (list_market_types, "filter", 4%nat); (list_countries, "filter", 5%nat);
      (list_venues, "filter", 6%nat); (list_market_catalogue, "filter", 7%nat);
      (list_current_orders, "date_range", 8%nat);
      (list_cleared_orders, "settled_date_range", 9%nat) ].
Proof.
  intros Hin. destruct op; cbn in Hin;
    repeat (apply elem_of_cons in Hin as [Hin|Hin];
            [first [ discriminate Hin
                   | injection Hin as -> ->; split; [lia|];
                     match goal with
                     | |- context [(?a - next s)%nat] =>
                         let k := fresh "k" in
                         remember (a - next s)%nat as k eqn:Hk;
                         cbn in Hk;
                         first [ replace k with 0%nat by lia
                               | replace k with 1%nat by lia
                               | replace k with 2%nat by lia
                               | replace k with 3%nat by lia
                               | replace k with 4%nat by lia
                               | replace k with 5%nat by lia
                               | replace k with 6%nat by lia
                               | replace k with 7%nat by lia
                               | replace k with 8%nat by lia
                               | replace k with 9%nat by lia ]
                     end; compute_done ]
            |]);
    by apply elem_of_nil in Hin.
Qed.

(** X8: the default mappings of two different parameters, of one operation
    or of two, are different objects: an update of the default filter of
    one operation is not seen by another operation. *)
Theorem default_objects_are_not_shared_between_parameters `{Filters}
    (s : store) (op1 op2 : operation) (p1 p2 : string) (l1 l2 : loc) :
  (p1, Some (VDict l1)) ∈ method_defaults (define_class s).1 op1 →
  (p2, Some (VDict l2)) ∈ method_defaults (define_class s).1 op2 →
  (op1, p1) ≠ (op2, p2) → l1 ≠ l2.
Proof.
  intros [Hl1 H1]%default_object_cases [Hl2 H2]%default_object_cases Hne Heq.
  subst l2. apply Hne. clear Hne.
  remember (l1 - next s)%nat as k eqn:Hk. clear Hk Hl1 Hl2.
  set_unfold in H1. set_unfold in H2.
  destruct H1 as [H1|[H1|[H1|[H1|[H1|[H1|[H1|[H1|[H1|[H1|[]]]]]]]]]]];
    injection H1 as -> -> ->;
    destruct H2 as [H2|[H2|[H2|[H2|[H2|[H2|[H2|[H2|[H2|[H2|[]]]]]]]]]]];
    first [discriminate H2 | by injection H2 as -> ->].
Qed.

Lemma default_objects_are_not_shared_between_parameters_witness :
  ("filter", Some (VDict 3)) ∈ method_defaults Demo.Betting list_events ∧
  ("filter", Some (VDict 6)) ∈ method_defaults Demo.Betting list_venues ∧
  3%nat ≠ 6%nat.
Proof.
  assert (H1 : ("filter", Some (VDict 3)) ∈ method_defaults Demo.Betting list_events)
    by (vm_compute; left).
  assert (H2 : ("filter", Some (VDict 6)) ∈ method_defaults Demo.Betting list_venues)
    by (vm_compute; left).
  split_and!; [exact H1|exact H2|].
  apply (@default_objects_are_not_shared_between_parameters Demo.filters
           Demo.empty_store list_events list_venues "filter" "filter" 3%nat 6%nat
           H1 H2).
  discriminate.
Defined.

(** X9: defining the class creates exactly ten objects, at the next ten
    locations of the store: eight results of [market_filter()] and then two
    results of [time_range()]; every object that existed keeps its place
    and its content. *)
Theorem define_class_allocates_ten_objects `{Filters} (s : store) (l : loc) :
  objs (define_class s).2 !! l =
    if decide (next s ≤ l < next s + 8)%nat then Some market_filter_result
    else if decide (next s + 8 ≤ l < next s + 10)%nat then Some time_range_result
    else objs s !! l.
Proof.
  cbn.
  repeat (rewrite lookup_insert; case_decide;
          [subst l; repeat (case_decide; try lia); done|]).
  repeat (case_decide; try lia); done.
Qed.


(** ** The tables of the operations *)

(** X10: no two operations dispatch the same fully qualified method name. *)
Theorem method_names_are_distinct :
  NoDup ((λ op, URI ++ remote_method op) <$> operations).
Proof. compute_done. Qed.

(** X11: two operations that hand the same result class to the response
    processor are the same operation, or are [list_market_book] and
    [list_runner_book]. *)
Theorem result_class_is_shared_by_book_operations_only
    (op1 op2 : operation) :
  expected_resource op1 = expected_resource op2 →
  op1 = op2 ∨
  (op1 ∈ [list_market_book; list_runner_book] ∧
   op2 ∈ [list_market_book; list_runner_book]).
Proof.
  destruct op1, op2; intros Heq;
    first [ by left | discriminate Heq | right; split; compute_done ].
Qed.

Lemma result_class_is_shared_by_book_operations_only_witness :
  list_market_book = list_runner_book ∨
  (list_market_book ∈ [list_market_book; list_runner_book] ∧
   list_runner_book ∈ [list_market_book; list_runner_book]).
Proof.
  apply (result_class_is_shared_by_book_operations_only
           list_market_book list_runner_book).
  reflexivity.
Defined.

(** X12: every default written as a literal is a valid value: the string
    defaults are members of the vocabulary of their parameter ("DAYS" of
    [TimeGranularity] for [granularity], "SETTLED" of [BetStatus] for
    [bet_status]), and the only integer default, of [max_results], lies in
    the range its docstring asks for, above 0 and at most 10000. *)
Theorem literal_defaults_are_valid (op : operation) :
  Forall (λ pe,
            match pe.2 with
            | DefaultStr x =>
                (pe.1 = "granularity" ∧ is_Some (lookup_value TimeGranularity x)) ∨
                (pe.1 = "bet_status" ∧ is_Some (lookup_value BetStatus x))
            | DefaultInt z => pe.1 = "max_results" ∧ (0 < z ≤ 10000)%Z
            | _ => True
            end) (signature op).
Proof.
  destruct op; simpl;
    repeat (apply Forall_cons; split;
            [simpl;
             first [ exact I
                   | left; split; [reflexivity|by eexists]
                   | right; split; [reflexivity|by eexists]
                   | split; [reflexivity|lia] ]
            |]);
    apply Forall_nil_2.
Qed.
